(** * Number plate scanner: the plate validator and the capture cycle

    A shallow embedding of [src/app/page.tsx]: the normalisation of the
    recognised text, [isValidPlateNumber], the gate sequence of
    [recognizeText] and the guard of [captureImage], with the properties
    the specification states about them, and what the page shows of the
    state, the callbacks of the mount effect and a run they cut into,
    with further properties of the code. *)

From Stdlib Require Import Strings.String Strings.Ascii.
From Stdlib Require Import List NArith ZArith QArith Bool Arith Lia.
Import ListNotations.

Local Open Scope bool_scope.
Local Open Scope nat_scope.

(** ** JavaScript values *)

Module JS.

(** A JavaScript string is a sequence of UTF-16 code units (numbers below
    65536; nothing here depends on the bound). *)
Definition code_unit := N.
Definition jsstring := list code_unit.

(** An ASCII literal of the source, as code units. *)
Definition lit (s : string) : jsstring :=
  List.map N_of_ascii (list_ascii_of_string s).
Arguments lit s%_string.

(** A JavaScript number, as far as [<] and [>=] against a literal can
    tell: every finite double is a rational; [NaN] compares false with
    everything. *)
Inductive number : Type :=
| NaN
| NegInfinity
| Finite (q : Q)
| Infinity.

Definition num (z : Z) : number := Finite (inject_Z z).

(** [a < b] *)
Definition ltb (a b : number) : bool :=
  match a, b with
  | NaN, _ | _, NaN => false
  | NegInfinity, NegInfinity => false
  | NegInfinity, _ => true
  | _, NegInfinity => false
  | Infinity, _ => false
  | Finite _, Infinity => true
  | Finite x, Finite y => negb (Qle_bool y x)
  end.

(** [a <= b] *)
Definition leb (a b : number) : bool :=
  match a, b with
  | NaN, _ | _, NaN => false
  | NegInfinity, _ => true
  | _, NegInfinity => false
  | _, Infinity => true
  | Infinity, Finite _ => false
  | Finite x, Finite y => Qle_bool x y
  end.

(** [a >= b] *)
Definition geb (a b : number) : bool := leb b a.

(** Character classes of the regular expressions. The patterns carry the
    [i] flag without the [u] flag: ECMAScript then canonicalises a code
    unit with its simple upper-case mapping, except that a code unit of
    128 or more is never mapped below 128. So [[A-Z]] under [i] matches
    the 52 ASCII letters and nothing else. *)
Definition isUpper (c : code_unit) : bool := ((65 <=? c) && (c <=? 90))%N.
Definition isLower (c : code_unit) : bool := ((97 <=? c) && (c <=? 122))%N.
Definition isLetter (c : code_unit) : bool := isUpper c || isLower c.  (* /[A-Z]/i *)
Definition isDigit (c : code_unit) : bool := ((48 <=? c) && (c <=? 57))%N.  (* /[0-9]/ *)
Definition isHyphen (c : code_unit) : bool := (c =? 45)%N.  (* \- *)

(** [/[A-Z0-9\-]/i] *)
Definition plateClass (c : code_unit) : bool :=
  isLetter c || isDigit c || isHyphen c.

(** [s.replace(/[^A-Z0-9\-]/gi, '')]: every code unit outside the class
    is replaced by the empty string. *)
Definition replaceNonPlate (s : jsstring) : jsstring :=
  filter plateClass s.

(** [re.test(s)] for a one-character class [re]. *)
Definition test (cls : code_unit -> bool) (s : jsstring) : bool :=
  existsb cls s.

(** [s.match(re)] for a one-character class [re] with the [g] flag: the
    array of all matches (each one code unit long), or [null] when there
    is none. *)
Definition matchAll (cls : code_unit -> bool) (s : jsstring)
  : option (list jsstring) :=
  match filter cls s with
  | [] => None
  | m => Some (List.map (fun c => [c]) m)
  end.

(** [x || []] *)
Definition orEmpty {A} (x : option (list A)) : list A :=
  match x with
  | Some l => l
  | None => []
  end.

(** [s.toUpperCase()] on one code unit. The page applies it only to the
    result of [replaceNonPlate], whose code units are all below 128
    (lemma [replaceNonPlate_class]); there the mapping is the ASCII one.
    Other code units are left as they are. *)
Definition upperUnit (c : code_unit) : code_unit :=
  if isLower c then (c - 32)%N else c.

Definition toUpperCase (s : jsstring) : jsstring := List.map upperUnit s.

End JS.

Import JS.

(** ** The plate validator *)

(** [(cleaned.match(/[A-Z]/gi) || []).length], line 64. *)
Definition letterCount (cleaned : jsstring) : nat :=
  length (orEmpty (matchAll isLetter cleaned)).

(** [(cleaned.match(/[0-9]/g) || []).length], line 65. *)
Definition numberCount (cleaned : jsstring) : nat :=
  length (orEmpty (matchAll isDigit cleaned)).

(** [isValidPlateNumber], lines 45-71. *)
Definition isValidPlateNumber (text : jsstring) : bool :=
  let cleaned := replaceNonPlate text in
  if (length cleaned <? 3) || (10 <? length cleaned) then false
  else
    let hasLetter := test isLetter cleaned in
    let hasNumber := test isDigit cleaned in
    if negb hasLetter || negb hasNumber then false
    else
      ((2 <=? letterCount cleaned) && (2 <=? numberCount cleaned))
      || ((3 <=? letterCount cleaned) && (1 <=? numberCount cleaned))
      || ((1 <=? letterCount cleaned) && (3 <=? numberCount cleaned)).

(** The cleaned string of [recognizeText], line 90. *)
Definition normalize (text : jsstring) : jsstring :=
  toUpperCase (replaceNonPlate text).

(** What the engine hands back: [data.text] and [data.confidence]. *)
Record RecognitionResult : Type := mkResult {
  text : jsstring;
  confidence : number
}.

(** The outcome of the gate sequence. *)
Inductive Outcome : Type :=
| Accepted (normalizedText : jsstring)
| LowConfidence
| AmbiguousShortText
| NotPlateShaped.

(** The gate sequence of [recognizeText], lines 90-109, with each exit
    tagged by its outcome: the three [setError(..); return] exits are the
    three rejections, [setPlateText(cleaned)] is the acceptance. *)
Definition validate (data : RecognitionResult) : Outcome :=
  let cleaned := normalize (text data) in
  if ltb (confidence data) (num 15) then LowConfidence
  else if ltb (confidence data) (num 30) && (length cleaned <? 4)
  then AmbiguousShortText
  else if negb (isValidPlateNumber cleaned) then NotPlateShaped
  else Accepted cleaned.

(** ** The component state and its effects *)

(** The four [useState] cells of the component. *)
Record State : Type := mkState {
  plateText : jsstring;
  loading : bool;
  error : jsstring;
  lastCapture : option jsstring
}.

(** How a block of statements ends: it runs to its end, it leaves the
    function through [return], or it throws. *)
Inductive Completion (A : Type) : Type :=
| Normal (a : A)
| Return
| Throw.
Arguments Normal {A} a.
Arguments Return {A}.
Arguments Throw {A}.

(** A call into the platform or the engine either gives a value or fails
    (an exception, a rejected promise). *)
Inductive result (A : Type) : Type :=
| Ok (a : A)
| Err.
Arguments Ok {A} a.
Arguments Err {A}.

(** The messages of the page. *)
Definition msgLowConfidence : jsstring :=
  lit "Low confidence in text recognition. Please ensure the number plate is clear and well-lit.".
Definition msgUnclear : jsstring :=
  lit "Unclear image. Please try again with better lighting or move closer to the plate.".
Definition msgNoPlate : jsstring :=
  lit "No valid number plate detected. Please ensure you are pointing the camera at a clear number plate.".
Definition msgFailed : jsstring :=
  lit "Failed to recognize text. Please try again.".
Definition msgCamera : jsstring :=
  lit "Unable to access camera. Please ensure you have granted camera permissions.".

(** The state a run of the gates leaves, outcome by outcome. *)
Definition show (o : Outcome) (s : State) : State :=
  match o with
  | Accepted x => mkState x (loading s) (error s) (lastCapture s)
  | LowConfidence =>
      mkState (plateText s) (loading s) msgLowConfidence (lastCapture s)
  | AmbiguousShortText =>
      mkState (plateText s) (loading s) msgUnclear (lastCapture s)
  | NotPlateShaped =>
      mkState (plateText s) (loading s) msgNoPlate (lastCapture s)
  end.

(** ** The shape gate in the specification's words *)

Definition letters (s : jsstring) : nat := length (filter isLetter s).
Definition digits (s : jsstring) : nat := length (filter isDigit s).

Definition plateShaped (s : jsstring) : Prop :=
  3 <= length s <= 10
  /\ (exists c, In c s /\ isLetter c = true)
  /\ (exists c, In c s /\ isDigit c = true)
  /\ ((letters s >= 2 /\ digits s >= 2)
      \/ (letters s >= 3 /\ digits s >= 1)
      \/ (letters s >= 1 /\ digits s >= 3)).

(** [A-Z0-9-] *)
Definition cleanClass (c : code_unit) : bool :=
  isUpper c || isDigit c || isHyphen c.

(** A confidence score as the engine documents it. *)
Definition inRange (c : number) : bool :=
  leb (num 0) c && leb c (num 100).

(** ** The gate sequence in the specification's words *)

(** Steps 2 to 5 of the algorithm of the specification, one rule a step;
    a step is reached when the confidence is at least 15 and, from step 4
    on, when the second gate does not apply. *)
Inductive decides (t : jsstring) (c : number) : Outcome -> Prop :=
| decides_low :
    ltb c (num 15) = true ->
    decides t c LowConfidence
| decides_short :
    geb c (num 15) = true ->
    ltb c (num 30) = true -> length (normalize t) < 4 ->
    decides t c AmbiguousShortText
| decides_shape :
    geb c (num 15) = true ->
    ~ (ltb c (num 30) = true /\ length (normalize t) < 4) ->
    ~ plateShaped (normalize t) ->
    decides t c NotPlateShaped
| decides_accept :
    geb c (num 15) = true ->
    ~ (ltb c (num 30) = true /\ length (normalize t) < 4) ->
    plateShaped (normalize t) ->
    decides t c (Accepted (normalize t)).

(** The state once the [finally] block has run, line 114. *)
Definition loadingOff (s : State) : State :=
  mkState (plateText s) false (error s) (lastCapture s).

(** ** What the page shows *)

(** A string used as a condition: the empty string is falsy. *)
Definition truthy (s : jsstring) : bool :=
  match s with
  | [] => false
  | _ :: _ => true
  end.

(** The parts of the markup that depend on the state, lines 118-200. *)
Record View : Type := mkView {
  errorBanner : option jsstring;     (* [{error && (..{error}..)}], 125-129 *)
  buttonDisabled : bool;             (* [disabled={loading}], 147 *)
  buttonLabel : jsstring;            (* 150 *)
  capturedImage : option jsstring;   (* [{lastCapture && (..)}], 155-164 *)
  plateInput : jsstring;             (* [value={plateText}], 173 *)
  validPlate : option jsstring       (* [{plateText && (..)}], 179-185 *)
}.

Definition render (s : State) : View :=
  mkView
    (if truthy (error s) then Some (error s) else None)
    (loading s)
    (if loading s then lit "Scanning..." else lit "Capture & Read Plate")
    (match lastCapture s with
     | Some dataUrl => if truthy dataUrl then Some dataUrl else None
     | None => None
     end)
    (plateText s)
    (if truthy (plateText s) then Some (plateText s) else None).

Section Page.

(** The platform and the engine are outside the repository: the raster
    type, the 2d context, the PNG encoder and Tesseract are taken as
    they come. *)
Variable Image : Type.

Record HTMLVideoElement : Type := mkVideo {
  videoWidth : N;
  videoHeight : N;
  frame : Image
}.

Record HTMLCanvasElement : Type := mkCanvas {
  width : N;
  height : N;
  bitmap : Image
}.

(** The bitmap of a canvas after its width or height is assigned. *)
Variable resetBitmap : N -> N -> Image.
(** Whether [canvas.getContext('2d')] gives a context. *)
Variable getContext : HTMLCanvasElement -> bool.
(** The bitmap after [ctx.drawImage(video, 0, 0, w, h)]. *)
Variable drawImage : HTMLVideoElement -> N -> N -> Image -> Image.
(** [canvas.toDataURL('image/png')] *)
Variable toDataURL : HTMLCanvasElement -> result jsstring.
(** [await Tesseract.recognize(dataUrl, 'eng', ..)] *)
Variable Tesseract_recognize : jsstring -> result RecognitionResult.

(** What the page did towards recognition, oldest first. *)
Inductive Event : Type :=
| RecognizeTextCalled
| EngineRequest (dataUrl : jsstring).

(** Everything a handler of the page can see or change. *)
Record World : Type := mkWorld {
  ui : State;
  canvasRef : option HTMLCanvasElement;
  videoRef : option HTMLVideoElement;
  trace : list Event
}.

(** Statements: state passing with a completion. *)
Definition M (A : Type) : Type := World -> Completion A * World.

Definition ret {A} (a : A) : M A := fun w => (Normal a, w).

Definition bind {A B} (m : M A) (k : A -> M B) : M B :=
  fun w =>
    match m w with
    | (Normal a, w') => k a w'
    | (Return, w') => (Return, w')
    | (Throw, w') => (Throw, w')
    end.

Notation "x <- m ;; k" := (bind m (fun x => k))
  (at level 61, m at next level, right associativity).
Notation "m ;; k" := (bind m (fun _ => k))
  (at level 61, right associativity).

Definition return_ : M unit := fun w => (Return, w).

(** [if (b) { m }] *)
Definition when (b : bool) (m : M unit) : M unit :=
  if b then m else ret tt.

(** A platform call inside the [try]. *)
Definition call {A} (r : result A) : M A :=
  fun w => match r with
           | Ok a => (Normal a, w)
           | Err => (Throw, w)
           end.

Definition modifyUi (f : State -> State) : M unit :=
  fun w => (Normal tt, mkWorld (f (ui w)) (canvasRef w) (videoRef w) (trace w)).

Definition setPlateText (v : jsstring) : M unit :=
  modifyUi (fun s => mkState v (loading s) (error s) (lastCapture s)).
Definition setLoading (v : bool) : M unit :=
  modifyUi (fun s => mkState (plateText s) v (error s) (lastCapture s)).
Definition setError (v : jsstring) : M unit :=
  modifyUi (fun s => mkState (plateText s) (loading s) v (lastCapture s)).
Definition setLastCapture (v : jsstring) : M unit :=
  modifyUi (fun s => mkState (plateText s) (loading s) (error s) (Some v)).

Definition log (e : Event) : M unit :=
  fun w => (Normal tt, mkWorld (ui w) (canvasRef w) (videoRef w) (trace w ++ [e])).

(** [try { body } catch { handler } finally { finalizer }]: the handler
    runs when the body throws; the finalizer runs in every case and,
    unless it ends abruptly itself, leaves the completion as it was. *)
Definition tryCatchFinally (body handler finalizer : M unit) : M unit :=
  fun w =>
    let '(c, w1) :=
      match body w with
      | (Throw, w') => handler w'
      | r => r
      end in
    match finalizer w1 with
    | (Normal _, w2) => (c, w2)
    | r => r
    end.

(** [recognizeText], lines 73-116, as one step: a run during whose wait
    for the engine no other handler of the page writes the state (see
    [recognizeTextAmid] for a run the mount effect cuts into). The
    [console.log] calls are left out; the two [log] steps are not in the
    source: they record in the trace that the function was entered and
    that the engine was asked. *)
Definition recognizeText (canvas : HTMLCanvasElement) : M unit :=
  log RecognizeTextCalled ;;
  setLoading true ;;
  setError (lit "") ;;
  setPlateText (lit "") ;;
  tryCatchFinally
    (dataUrl <- call (toDataURL canvas) ;;
     setLastCapture dataUrl ;;
     log (EngineRequest dataUrl) ;;
     data <- call (Tesseract_recognize dataUrl) ;;
     let cleaned := toUpperCase (replaceNonPlate (text data)) in
     when (ltb (confidence data) (num 15))
       (setError msgLowConfidence ;; return_) ;;
     when (ltb (confidence data) (num 30) && (length cleaned <? 4))
       (setError msgUnclear ;; return_) ;;
     when (negb (isValidPlateNumber cleaned))
       (setError msgNoPlate ;; return_) ;;
     setPlateText cleaned)
    (setError msgFailed)
    (setLoading false).

(** [captureImage], lines 29-42. The canvas is an object behind the ref:
    its new size and bitmap are written back to [canvasRef]. *)
Definition captureImage : M unit :=
  fun w =>
    match canvasRef w, videoRef w with
    | Some canvas, Some video =>
        let canvas1 :=
          mkCanvas (videoWidth video) (height canvas)
                   (resetBitmap (videoWidth video) (height canvas)) in
        let canvas2 :=
          mkCanvas (width canvas1) (videoHeight video)
                   (resetBitmap (width canvas1) (videoHeight video)) in
        let w2 := mkWorld (ui w) (Some canvas2) (videoRef w) (trace w) in
        if getContext canvas2 then
          let canvas3 :=
            mkCanvas (width canvas2) (height canvas2)
                     (drawImage video (width canvas2) (height canvas2)
                                (bitmap canvas2)) in
          let w3 := mkWorld (ui w2) (Some canvas3) (videoRef w2) (trace w2) in
          recognizeText canvas3 w3
        else (Normal tt, w2)
    | _, _ => (Normal tt, w)
    end.

(** The canvas [captureImage] hands on: the size of the video, cleared. *)
Definition sized (video : HTMLVideoElement) : HTMLCanvasElement :=
  mkCanvas (videoWidth video) (videoHeight video)
           (resetBitmap (videoWidth video) (videoHeight video)).

(** The same canvas with the frame of the video drawn over it. *)
Definition drawn (video : HTMLVideoElement) : HTMLCanvasElement :=
  mkCanvas (videoWidth video) (videoHeight video)
           (drawImage video (videoWidth video) (videoHeight video)
                      (resetBitmap (videoWidth video) (videoHeight video))).

(** ** The run of [recognizeText] around its [await] *)

(** Lines 74-76. *)
Definition prologue : M unit :=
  log RecognizeTextCalled ;;
  setLoading true ;;
  setError (lit "") ;;
  setPlateText (lit "").

(** The [try] block up to the call of the engine, lines 79-82. *)
Definition beforeAwait (canvas : HTMLCanvasElement) : M jsstring :=
  dataUrl <- call (toDataURL canvas) ;;
  setLastCapture dataUrl ;;
  log (EngineRequest dataUrl) ;;
  ret dataUrl.

(** The [try] block from the answer of the engine on, lines 82-109. *)
Definition afterAwait (answer : result RecognitionResult) : M unit :=
  data <- call answer ;;
  let cleaned := toUpperCase (replaceNonPlate (text data)) in
  when (ltb (confidence data) (num 15))
    (setError msgLowConfidence ;; return_) ;;
  when (ltb (confidence data) (num 30) && (length cleaned <? 4))
    (setError msgUnclear ;; return_) ;;
  when (negb (isValidPlateNumber cleaned))
    (setError msgNoPlate ;; return_) ;;
  setPlateText cleaned.

(** The world in which the function waits for the engine, with the data
    URL it sent; [None] when the encoder threw and there is no wait. *)
Definition atAwait (canvas : HTMLCanvasElement) (w : World)
  : option (jsstring * World) :=
  match (prologue ;; beforeAwait canvas) w with
  | (Normal dataUrl, w1) => Some (dataUrl, w1)
  | _ => None
  end.

(** The rest of the function once the engine has answered. *)
Definition resume (answer : result RecognitionResult) : M unit :=
  tryCatchFinally (afterAwait answer) (setError msgFailed) (setLoading false).


(** ** The mount effect and a run it cuts into *)

(** What [getUserMedia] hands over when it succeeds. *)
Variable MediaStream : Type.

(** How the promise of [getUserMedia] settles, line 16-17. *)
Inductive Settlement : Type :=
| Granted (stream : MediaStream)
| Denied.

(** The world together with the stream attached to the video element
    (its [srcObject]). *)
Record Mounted : Type := mkMounted {
  world : World;
  srcObject : option MediaStream
}.

(** The two callbacks of the mount effect, lines 18-26: the first attaches
    the stream when the video element is there, the second sets the
    camera error. The [console.error] call is left out. *)
Definition onCameraSettled (r : Settlement) (p : Mounted) : Mounted :=
  match r with
  | Granted stream =>
      match videoRef (world p) with
      | Some _ => mkMounted (world p) (Some stream)
      | None => p
      end
  | Denied => mkMounted (snd (setError msgCamera (world p))) (srcObject p)
  end.

(** A run of [recognizeText] with what the mount effect may do while the
    run waits for the engine at line 82: nothing ([None]), or one of its
    callbacks. The button is disabled during the wait, so no click cuts
    in. When the encoder throws there is no wait. *)
Definition recognizeTextAmid
  (during : option Settlement) (canvas : HTMLCanvasElement) (p : Mounted)
  : Completion unit * Mounted :=
  match atAwait canvas (world p) with
  | Some (dataUrl, w1) =>
      let p1 :=
        match during with
        | Some r => onCameraSettled r (mkMounted w1 (srcObject p))
        | None => mkMounted w1 (srcObject p)
        end in
      let '(c, w2) := resume (Tesseract_recognize dataUrl) (world p1) in
      (c, mkMounted w2 (srcObject p1))
  | None =>
      let '(c, w2) := recognizeText canvas (world p) in
      (c, mkMounted w2 (srcObject p))
  end.

(** The error the mount effect leaves during the wait. *)
Definition errorDuring (during : option Settlement) : jsstring :=
  match during with
  | Some Denied => msgCamera
  | _ => []
  end.

(** The world with another component state and a longer trace. *)
Definition after (w : World) (s : State) (es : list Event) : World :=
  mkWorld s (canvasRef w) (videoRef w) (trace w ++ es).

(** Case analysis on every comparison of code units in the goal; the
    impossible combinations are closed by arithmetic. *)
Ltac no_branch t :=
  lazymatch t with
  | context [if _ then _ else _] => fail
  | _ => idtac
  end.

Ltac class_cases :=
  unfold plateClass, cleanClass, upperUnit, isLetter, isUpper, isLower,
    isDigit, isHyphen;
  repeat match goal with
         | |- context [(?a <=? ?b)%N] =>
             no_branch a; no_branch b;
             destruct (N.leb_spec a b); simpl; try lia
         | |- context [(?a =? ?b)%N] =>
             no_branch a; no_branch b;
             destruct (N.eqb_spec a b); simpl; try lia
         end;
  simpl; try reflexivity; try discriminate; try lia.

(** ** Comparisons *)

Lemma geb_not_ltb (c : number) (z : Z) :
  geb c (num z) = true -> ltb c (num z) = false.
Proof.
  destruct c as [| |q|]; simpl; try discriminate; try reflexivity.
  intros ->. reflexivity.
Qed.

Lemma ltb_num_trans (c : number) (y z : Z) :
  (y <= z)%Z -> ltb c (num y) = true -> ltb c (num z) = true.
Proof.
  intros Hyz. destruct c as [| |q|]; simpl; try discriminate; try reflexivity.
  rewrite !negb_true_iff. intros Hy.
  destruct (Qle_bool (inject_Z z) q) eqn:Hz; [|reflexivity].
  apply Qle_bool_iff in Hz.
  assert (Hle : (inject_Z y <= q)%Q).
  { apply Qle_trans with (inject_Z z); [|exact Hz].
    rewrite <- Zle_Qle. exact Hyz. }
  apply Qle_bool_iff in Hle. congruence.
Qed.

(** ** Character classes and normalisation *)

Lemma upperUnit_clean (c : code_unit) :
  plateClass c = true -> cleanClass (upperUnit c) = true.
Proof. class_cases. Qed.

Lemma upperUnit_fixes_clean (c : code_unit) :
  cleanClass c = true -> upperUnit c = c.
Proof. class_cases. Qed.

Lemma cleanClass_plateClass (c : code_unit) :
  cleanClass c = true -> plateClass c = true.
Proof. class_cases. Qed.

Lemma isHyphen_upperUnit (c : code_unit) :
  isHyphen (upperUnit c) = isHyphen c.
Proof. class_cases. Qed.

Lemma replaceNonPlate_class (s : jsstring) :
  forallb plateClass (replaceNonPlate s) = true.
Proof. unfold replaceNonPlate. apply forallb_filter. Qed.

Lemma normalize_clean (s : jsstring) :
  forallb cleanClass (normalize s) = true.
Proof.
  unfold normalize, toUpperCase, replaceNonPlate.
  induction s as [|c s IH]; simpl; [reflexivity|].
  destruct (plateClass c) eqn:Hc; simpl; [|exact IH].
  rewrite (upperUnit_clean c Hc), IH. reflexivity.
Qed.

Lemma clean_fixed (s : jsstring) :
  forallb cleanClass s = true -> normalize s = s.
Proof.
  unfold normalize, toUpperCase, replaceNonPlate.
  induction s as [|c s IH]; simpl; [reflexivity|].
  intros H. apply andb_true_iff in H as [Hc Hs].
  rewrite (cleanClass_plateClass c Hc). simpl.
  rewrite (upperUnit_fixes_clean c Hc), (IH Hs). reflexivity.
Qed.

Lemma replaceNonPlate_clean (s : jsstring) :
  forallb cleanClass s = true -> replaceNonPlate s = s.
Proof.
  intros H. unfold replaceNonPlate. apply forallb_filter_id.
  rewrite forallb_forall in *. intros c Hc.
  apply cleanClass_plateClass, H, Hc.
Qed.

(** ** The regular-expression helpers *)

Lemma matchAll_count (cls : code_unit -> bool) (s : jsstring) :
  length (orEmpty (matchAll cls s)) = length (filter cls s).
Proof.
  unfold matchAll. destruct (filter cls s) as [|c m]; [reflexivity|].
  simpl. rewrite length_map. reflexivity.
Qed.

Lemma test_count (cls : code_unit -> bool) (s : jsstring) :
  test cls s = (1 <=? length (filter cls s)).
Proof.
  unfold test. induction s as [|c s IH]; simpl; [reflexivity|].
  destruct (cls c); simpl; [reflexivity | exact IH].
Qed.

Lemma test_exists (cls : code_unit -> bool) (s : jsstring) :
  test cls s = true <-> exists c, In c s /\ cls c = true.
Proof. unfold test. apply existsb_exists. Qed.

(** [isValidPlateNumber] decides the shape of what it cleaned. *)
Lemma isValidPlateNumber_shape (s : jsstring) :
  isValidPlateNumber s = true <-> plateShaped (replaceNonPlate s).
Proof.
  unfold isValidPlateNumber, plateShaped, letters, digits, letterCount,
    numberCount.
  set (cleaned := replaceNonPlate s).
  rewrite !matchAll_count, <- !test_exists, !test_count.
  set (n := length cleaned).
  set (l := length (filter isLetter cleaned)).
  set (d := length (filter isDigit cleaned)).
  destruct (n <? 3) eqn:H3; [apply Nat.ltb_lt in H3|apply Nat.ltb_ge in H3];
    cbn [orb andb negb].
  { split; [discriminate | lia]. }
  destruct (10 <? n) eqn:H10;
    [apply Nat.ltb_lt in H10|apply Nat.ltb_ge in H10]; cbn [orb andb negb].
  { split; [discriminate | lia]. }
  destruct (1 <=? l) eqn:Hl; [apply Nat.leb_le in Hl|apply Nat.leb_gt in Hl];
    cbn [orb andb negb].
  2:{ split; [discriminate | intros (_ & H & _); discriminate]. }
  destruct (1 <=? d) eqn:Hd; [apply Nat.leb_le in Hd|apply Nat.leb_gt in Hd];
    cbn [orb andb negb].
  2:{ split; [discriminate | intros (_ & _ & H & _); discriminate]. }
  rewrite !orb_true_iff, !andb_true_iff, !Nat.leb_le.
  split.
  - intros H. repeat split; try lia; try reflexivity.
  - intros (_ & _ & _ & H). lia.
Qed.

Lemma letter_not_digit (c : code_unit) :
  isLetter c = true -> isDigit c = false.
Proof. class_cases. Qed.

Lemma counts_le_length (s : jsstring) :
  letters s + digits s <= length s.
Proof.
  unfold letters, digits.
  induction s as [|c s IH]; simpl; [lia|].
  destruct (isLetter c) eqn:Hl.
  - rewrite (letter_not_digit c Hl). simpl. lia.
  - destruct (isDigit c); simpl; lia.
Qed.

(** Fewer than four characters never make a plate. *)
Lemma short_not_plate (s : jsstring) :
  length (replaceNonPlate s) < 4 -> isValidPlateNumber s = false.
Proof.
  intros Hlen. destruct (isValidPlateNumber s) eqn:Hv; [|reflexivity].
  apply isValidPlateNumber_shape in Hv.
  destruct Hv as (_ & _ & _ & Hcount).
  pose proof (counts_le_length (replaceNonPlate s)). lia.
Qed.

(** The cleaned string passes through the cleaning step of
    [isValidPlateNumber] as it is. *)
Lemma isValidPlateNumber_normalize (s : jsstring) :
  isValidPlateNumber (normalize s) = true <-> plateShaped (normalize s).
Proof.
  rewrite isValidPlateNumber_shape.
  rewrite (replaceNonPlate_clean _ (normalize_clean s)). reflexivity.
Qed.

(** ** The gates *)

(** C2: a confidence strictly below 15 is rejected as [LowConfidence],
    whatever the text. *)
Theorem low_confidence_rejected (t : jsstring) (c : number) :
  ltb c (num 15) = true ->
  validate (mkResult t c) = LowConfidence.
Proof.
  intros Hc. unfold validate. simpl. rewrite Hc. reflexivity.
Qed.

(** C3: with a confidence in [15, 30), a cleaned string shorter than 4
    is rejected as [AmbiguousShortText]. The gate comes after the first
    one (below 15 the same text is a [LowConfidence]) and before the shape
    gate (which would reject the same text, under its own name). *)
Theorem short_text_rejected (t : jsstring) (c : number) :
  geb c (num 15) = true ->
  ltb c (num 30) = true ->
  length (normalize t) < 4 ->
  validate (mkResult t c) = AmbiguousShortText
  /\ (forall c', ltb c' (num 15) = true ->
                 validate (mkResult t c') = LowConfidence)
  /\ isValidPlateNumber (normalize t) = false.
Proof.
  intros H15 H30 Hlen. split; [|split].
  - unfold validate. simpl.
    rewrite (geb_not_ltb _ _ H15), H30.
    apply Nat.ltb_lt in Hlen. rewrite Hlen. reflexivity.
  - intros c' Hc'. unfold validate. simpl. rewrite Hc'. reflexivity.
  - apply short_not_plate.
    rewrite (replaceNonPlate_clean _ (normalize_clean t)). exact Hlen.
Qed.

(** C1: past both confidence gates the outcome is [Accepted] of the
    cleaned string exactly when the cleaned string has the plate shape,
    and [NotPlateShaped] in every other case. *)
Theorem shape_gate_decides (t : jsstring) (c : number) :
  geb c (num 15) = true ->
  negb (ltb c (num 30) && (length (normalize t) <? 4)) = true ->
  (validate (mkResult t c) = Accepted (normalize t)
   <-> plateShaped (normalize t))
  /\ (~ plateShaped (normalize t) ->
      validate (mkResult t c) = NotPlateShaped).
Proof.
  intros H15 Hgate. apply negb_true_iff in Hgate.
  unfold validate. simpl. rewrite (geb_not_ltb _ _ H15), Hgate.
  rewrite <- isValidPlateNumber_normalize.
  destruct (isValidPlateNumber (normalize t)); simpl.
  - split; [split; reflexivity | intros H; exfalso; apply H; reflexivity].
  - split; [split; discriminate | reflexivity].
Qed.

(** C4, as the code has it: the text "AB-1234 " at confidence 80 is
    accepted with its hyphen, as "AB-1234". *)
Theorem AB_1234_accepted_with_hyphen :
  validate (mkResult (lit "AB-1234 ") (num 80)) = Accepted (lit "AB-1234").
Proof. reflexivity. Qed.

(** C4 as stated fails: the accepted string is not "AB1234". *)
Lemma AB_1234_not_stripped :
  validate (mkResult (lit "AB-1234 ") (num 80)) <> Accepted (lit "AB1234").
Proof. vm_compute. discriminate. Qed.

(** C5: an accepted string consists of [A-Z0-9-] only, is 3 to 10 long
    and holds at least one letter and one digit. *)
Theorem accepted_well_formed (data : RecognitionResult) (x : jsstring) :
  validate data = Accepted x ->
  forallb cleanClass x = true
  /\ 3 <= length x <= 10
  /\ (exists l, In l x /\ isLetter l = true)
  /\ (exists d, In d x /\ isDigit d = true).
Proof.
  unfold validate.
  destruct (ltb (confidence data) (num 15)); [discriminate|].
  destruct (ltb (confidence data) (num 30)
            && (length (normalize (text data)) <? 4)); [discriminate|].
  destruct (isValidPlateNumber (normalize (text data))) eqn:Hv;
    simpl; [|discriminate].
  intros H. injection H as <-.
  apply isValidPlateNumber_normalize in Hv.
  destruct Hv as (Hlen & Hl & Hd & _).
  split; [apply normalize_clean|]. auto.
Qed.

(** C6: normalising twice is normalising once, and a string over
    [A-Z0-9-] is its own normal form. *)
Theorem normalize_idempotent (s : jsstring) :
  normalize (normalize s) = normalize s
  /\ (forallb cleanClass s = true -> normalize s = s).
Proof.
  split; [|apply clean_fixed].
  apply clean_fixed, normalize_clean.
Qed.

Lemma geb_30_gates (c : number) :
  geb c (num 30) = true ->
  ltb c (num 15) = false /\ ltb c (num 30) = false.
Proof.
  intros H. pose proof (geb_not_ltb _ _ H) as H30. split; [|exact H30].
  destruct (ltb c (num 15)) eqn:H15; [|reflexivity].
  apply (ltb_num_trans c 15 30) in H15; [congruence | lia].
Qed.

Lemma normalize_app (s1 s2 : jsstring) :
  normalize (s1 ++ s2) = normalize s1 ++ normalize s2.
Proof.
  unfold normalize, toUpperCase, replaceNonPlate.
  rewrite filter_app, map_app. reflexivity.
Qed.

Lemma filter_app_length (cls : code_unit -> bool) (s1 s2 : jsstring) :
  length (filter cls (s1 ++ s2))
  = length (filter cls s1) + length (filter cls s2).
Proof. rewrite filter_app, length_app. reflexivity. Qed.

Lemma hyphens_normalize (s : jsstring) :
  filter isHyphen (normalize s) = filter isHyphen s.
Proof.
  unfold normalize, toUpperCase, replaceNonPlate.
  induction s as [|c s IH]; simpl; [reflexivity|].
  destruct (plateClass c) eqn:Hc; simpl.
  - rewrite isHyphen_upperUnit. destruct (isHyphen c) eqn:Hh; simpl.
    + rewrite IH. f_equal. revert Hh. class_cases.
    + exact IH.
  - replace (isHyphen c) with false; [exact IH|].
    revert Hc. class_cases.
Qed.

Lemma accepted_shape (data : RecognitionResult) (x : jsstring) :
  validate data = Accepted x -> 3 <= length x.
Proof.
  unfold validate.
  destruct (ltb (confidence data) (num 15)); [discriminate|].
  destruct (ltb (confidence data) (num 30) && _); [discriminate|].
  destruct (isValidPlateNumber (normalize (text data))) eqn:Hv;
    simpl; [|discriminate].
  intros H. injection H as <-.
  apply isValidPlateNumber_normalize in Hv. destruct Hv as ((H3 & _) & _).
  exact H3.
Qed.

Lemma validate_accepted (data : RecognitionResult) (x : jsstring) :
  validate data = Accepted x -> x = normalize (text data).
Proof.
  unfold validate.
  destruct (ltb (confidence data) (num 15)); [discriminate|].
  destruct (ltb (confidence data) (num 30) && _); [discriminate|].
  destruct (negb _); [discriminate|].
  intros H. injection H as <-. reflexivity.
Qed.

(** C9: a hyphen adds one to the length of the cleaned string and
    nothing to its letter and digit counts; the length with hyphens is
    what both length checks see; an accepted string keeps the hyphens of
    the text; and "AB-12" is accepted as it is at every confidence of 30
    or more. *)
Theorem hyphens_count_as_length_only (c : number) (pre post : jsstring) :
  geb c (num 30) = true ->
  validate (mkResult (lit "AB-12") c) = Accepted (lit "AB-12")
  /\ length (normalize (pre ++ lit "-" ++ post))
     = S (length (normalize (pre ++ post)))
  /\ letterCount (normalize (pre ++ lit "-" ++ post))
     = letterCount (normalize (pre ++ post))
  /\ numberCount (normalize (pre ++ lit "-" ++ post))
     = numberCount (normalize (pre ++ post))
  /\ (forall data x,
        validate data = Accepted x ->
        filter isHyphen x = filter isHyphen (text data))
  /\ validate (mkResult (lit "A1") (num 20)) = AmbiguousShortText
  /\ validate (mkResult (lit "A1--") (num 20)) = NotPlateShaped
  /\ validate (mkResult (lit "AB12------") c) = Accepted (lit "AB12------")
  /\ validate (mkResult (lit "AB12-------") c) = NotPlateShaped.
Proof.
  intros H30. destruct (geb_30_gates c H30) as [G15 G30].
  assert (Hrun : forall t, validate (mkResult t c)
                 = if negb (isValidPlateNumber (normalize t))
                   then NotPlateShaped else Accepted (normalize t)).
  { intros t. unfold validate. simpl. rewrite G15, G30. reflexivity. }
  split; [rewrite Hrun; reflexivity|].
  split.
  { rewrite !normalize_app, !length_app. simpl. lia. }
  split.
  { unfold letterCount. rewrite !matchAll_count, !normalize_app.
    rewrite !filter_app_length. reflexivity. }
  split.
  { unfold numberCount. rewrite !matchAll_count, !normalize_app.
    rewrite !filter_app_length. reflexivity. }
  split.
  { intros data x Hx. rewrite (validate_accepted _ _ Hx).
    apply hyphens_normalize. }
  split; [reflexivity|]. split; [reflexivity|].
  split; rewrite Hrun; reflexivity.
Qed.

(** ** The recognition cycle *)

(** A run of [recognizeText], case by case: the encoder fails, the
    engine fails, or the gates decide. *)
Lemma recognizeText_run (canvas : HTMLCanvasElement) (w : World) :
  recognizeText canvas w =
  match toDataURL canvas with
  | Err =>
      (Normal tt,
       after w (mkState [] false msgFailed (lastCapture (ui w)))
             [RecognizeTextCalled])
  | Ok dataUrl =>
      match Tesseract_recognize dataUrl with
      | Err =>
          (Normal tt,
           after w (mkState [] false msgFailed (Some dataUrl))
                 [RecognizeTextCalled; EngineRequest dataUrl])
      | Ok data =>
          (match validate data with
           | Accepted _ => Normal tt
           | _ => Return
           end,
           after w (show (validate data) (mkState [] false [] (Some dataUrl)))
                 [RecognizeTextCalled; EngineRequest dataUrl])
      end
  end.
Proof.
  unfold after.
  cbv [recognizeText bind ret when call log tryCatchFinally return_
       setLoading setError setPlateText setLastCapture modifyUi
       ui canvasRef videoRef trace plateText loading error lastCapture].
  destruct (toDataURL canvas) as [dataUrl|]; [|reflexivity].
  rewrite <- app_assoc.
  destruct (Tesseract_recognize dataUrl) as [data|]; [|reflexivity].
  unfold validate, normalize.
  destruct (ltb (confidence data) (num 15)); [reflexivity|].
  destruct (ltb (confidence data) (num 30) && _); [reflexivity|].
  destruct (negb _); reflexivity.
Qed.

(** Every run of [recognizeText] leaves its mark on the trace. *)
Lemma recognizeText_traced (canvas : HTMLCanvasElement) (w : World) :
  exists es,
    trace (snd (recognizeText canvas w))
    = trace w ++ RecognizeTextCalled :: es.
Proof.
  rewrite recognizeText_run.
  destruct (toDataURL canvas) as [dataUrl|]; [|exists []; reflexivity].
  destruct (Tesseract_recognize dataUrl);
    exists [EngineRequest dataUrl]; reflexivity.
Qed.

(** Where the run waits, and with what. *)
Lemma atAwait_run (canvas : HTMLCanvasElement) (w : World) :
  atAwait canvas w =
  match toDataURL canvas with
  | Ok dataUrl =>
      Some (dataUrl,
            after w (mkState [] true [] (Some dataUrl))
                  [RecognizeTextCalled; EngineRequest dataUrl])
  | Err => None
  end.
Proof.
  unfold atAwait, after.
  cbv [prologue beforeAwait bind ret call log setLoading setError
       setPlateText setLastCapture modifyUi
       ui canvasRef videoRef trace plateText loading error lastCapture].
  destruct (toDataURL canvas) as [dataUrl|]; [|reflexivity].
  rewrite <- app_assoc. reflexivity.
Qed.

(** The rest of the run, from whatever state the answer finds. *)
Lemma resume_run (answer : result RecognitionResult) (w1 : World) :
  resume answer w1 =
  match answer with
  | Err =>
      (Normal tt,
       mkWorld (mkState (plateText (ui w1)) false msgFailed
                        (lastCapture (ui w1)))
               (canvasRef w1) (videoRef w1) (trace w1))
  | Ok data =>
      (match validate data with
       | Accepted _ => Normal tt
       | _ => Return
       end,
       mkWorld (loadingOff (show (validate data) (ui w1)))
               (canvasRef w1) (videoRef w1) (trace w1))
  end.
Proof.
  unfold resume, afterAwait, loadingOff.
  cbv [bind ret when call tryCatchFinally return_
       setLoading setError setPlateText modifyUi
       ui canvasRef videoRef trace plateText loading error lastCapture].
  destruct answer as [data|]; [|reflexivity].
  unfold validate, normalize.
  destruct (ltb (confidence data) (num 15)); [reflexivity|].
  destruct (ltb (confidence data) (num 30) && _); [reflexivity|].
  destruct (negb _); reflexivity.
Qed.

(** On a confidence of the engine's range, [>=] is the negation of [<]. *)
Lemma inRange_geb (c : number) (z : Z) :
  inRange c = true -> geb c (num z) = negb (ltb c (num z)).
Proof.
  destruct c as [| |q|]; simpl; try discriminate.
  intros _. rewrite negb_involutive. reflexivity.
Qed.

Lemma decides_functional (t : jsstring) (c : number) (o1 o2 : Outcome) :
  decides t c o1 -> decides t c o2 -> o1 = o2.
Proof.
  intros H1 H2.
  destruct H1 as [L1 | G1 L1 S1 | G1 N1 P1 | G1 N1 P1];
    destruct H2 as [L2 | G2 L2 S2 | G2 N2 P2 | G2 N2 P2];
    try reflexivity;
    try (apply geb_not_ltb in G1; congruence);
    try (apply geb_not_ltb in G2; congruence);
    try (exfalso; apply N1; split; assumption);
    try (exfalso; apply N2; split; assumption);
    exfalso; auto.
Qed.

Lemma decides_validate (t : jsstring) (c : number) :
  inRange c = true -> decides t c (validate (mkResult t c)).
Proof.
  intros Hc. pose proof (inRange_geb c 15 Hc) as G15.
  unfold validate. simpl.
  destruct (ltb c (num 15)) eqn:H15; [apply decides_low; exact H15|].
  simpl in G15.
  destruct (ltb c (num 30)) eqn:H30; simpl.
  - destruct (length (normalize t) <? 4) eqn:Hlen.
    + apply Nat.ltb_lt in Hlen. apply decides_short; assumption.
    + apply Nat.ltb_ge in Hlen.
      destruct (isValidPlateNumber (normalize t)) eqn:Hv; simpl.
      * apply decides_accept; [exact G15 | intros [_ ?]; lia|].
        apply isValidPlateNumber_normalize. exact Hv.
      * apply decides_shape; [exact G15 | intros [_ ?]; lia|].
        rewrite <- isValidPlateNumber_normalize. congruence.
  - destruct (isValidPlateNumber (normalize t)) eqn:Hv; simpl.
    + apply decides_accept; [exact G15 | intros [? _]; congruence|].
      apply isValidPlateNumber_normalize. exact Hv.
    + apply decides_shape; [exact G15 | intros [? _]; congruence|].
      rewrite <- isValidPlateNumber_normalize. congruence.
Qed.

(** Outside the range the steps of the specification may all pass by: no
    rule speaks of a [NaN] confidence. *)
Lemma decides_nothing_at_NaN (t : jsstring) (o : Outcome) :
  ~ decides t NaN o.
Proof. intros H. destruct H; discriminate. Qed.

(** C7: for every text and every confidence in [0, 100] exactly one
    outcome is due by the steps of the specification, and the validator
    returns it; from whatever state the engine's answer finds, the rest of
    the run does not throw and ends in the state of that outcome, with
    [loading] off. *)
Theorem validator_total (t : jsstring) (c : number) (w1 : World) :
  inRange c = true ->
  (exists! o : Outcome, decides t c o)
  /\ decides t c (validate (mkResult t c))
  /\ fst (resume (Ok (mkResult t c)) w1) <> Throw
  /\ ui (snd (resume (Ok (mkResult t c)) w1))
     = loadingOff (show (validate (mkResult t c)) (ui w1)).
Proof.
  intros Hc. pose proof (decides_validate t c Hc) as Hd.
  split.
  { exists (validate (mkResult t c)). split; [exact Hd|].
    intros o Ho. apply (decides_functional t c _ _ Hd Ho). }
  split; [exact Hd|].
  rewrite resume_run. split; [|reflexivity].
  destruct (validate (mkResult t c)); discriminate.
Qed.

(** C8: with the canvas or the video missing, [captureImage] leaves the
    world as it is, the trace included: no recognition is started. *)
Theorem captureImage_without_refs (w : World) :
  canvasRef w = None \/ videoRef w = None ->
  captureImage w = (Normal tt, w)
  /\ trace (snd (captureImage w)) = trace w.
Proof.
  intros H. unfold captureImage.
  destruct H as [H|H]; rewrite H.
  - split; reflexivity.
  - destruct (canvasRef w); split; reflexivity.
Qed.

(** With both refs and a 2d context, a capture does start a recognition. *)
Lemma captureImage_with_refs_traced
  (w : World) (canvas : HTMLCanvasElement) (video : HTMLVideoElement) :
  canvasRef w = Some canvas ->
  videoRef w = Some video ->
  getContext (mkCanvas (videoWidth video) (videoHeight video)
                (resetBitmap (videoWidth video) (videoHeight video))) = true ->
  exists es,
    trace (snd (captureImage w)) = trace w ++ RecognizeTextCalled :: es.
Proof.
  intros Hc Hv Hctx. unfold captureImage. rewrite Hc, Hv. simpl.
  rewrite Hctx.
  match goal with
  | |- context [recognizeText ?cv ?w0] =>
      destruct (recognizeText_traced cv w0) as [es Hes]
  end.
  exists es. exact Hes.
Qed.

(** The component state at the end of a run the mount effect may cut
    into. *)
Lemma recognizeTextAmid_ui
  (during : option Settlement) (canvas : HTMLCanvasElement) (p : Mounted) :
  ui (world (snd (recognizeTextAmid during canvas p))) =
  match toDataURL canvas with
  | Err => mkState [] false msgFailed (lastCapture (ui (world p)))
  | Ok dataUrl =>
      match Tesseract_recognize dataUrl with
      | Err => mkState [] false msgFailed (Some dataUrl)
      | Ok data =>
          loadingOff
            (show (validate data)
                  (mkState [] true (errorDuring during) (Some dataUrl)))
      end
  end.
Proof.
  unfold recognizeTextAmid. rewrite atAwait_run.
  destruct (toDataURL canvas) as [dataUrl|] eqn:Hurl.
  - assert (Hui : forall p1 : Mounted,
               ui (world p1)
               = mkState [] true (errorDuring during) (Some dataUrl) ->
               ui (world (snd (let '(c, w2) :=
                                 resume (Tesseract_recognize dataUrl)
                                        (world p1) in
                               (c, mkMounted w2 (srcObject p1)))))
               = match Tesseract_recognize dataUrl with
                 | Err => mkState [] false msgFailed (Some dataUrl)
                 | Ok data =>
                     loadingOff
                       (show (validate data)
                             (mkState [] true (errorDuring during)
                                      (Some dataUrl)))
                 end).
    { intros p1 Hp1. rewrite resume_run.
      destruct (Tesseract_recognize dataUrl) as [data|]; simpl;
        rewrite Hp1; reflexivity. }
    apply Hui.
    destruct during as [[stream|]|]; simpl; try reflexivity.
    destruct (videoRef (world p)); reflexivity.
  - rewrite recognizeText_run, Hurl. reflexivity.
Qed.

(** C10, as the code has it: a run first clears both fields (what they
    held before has no effect on the end). A failure of the encoder or of
    the engine and each rejection leave their error and no plate text; an
    acceptance leaves the cleaned string, which is not empty, and the
    error as the wait left it: empty, or the camera error when the mount
    effect failed during the wait. So one of the two fields is non-empty
    at the end, and only one unless the camera failed during the wait. *)
Theorem run_ends_with_text_or_error
  (during : option Settlement) (canvas : HTMLCanvasElement) (p : Mounted) :
  let s := ui (world (snd (recognizeTextAmid during canvas p))) in
  (plateText s <> [] \/ error s <> [])
  /\ (during <> Some Denied ->
      (plateText s = [] /\ error s <> [])
      \/ (plateText s <> [] /\ error s = []))
  /\ match toDataURL canvas with
     | Err => plateText s = [] /\ error s = msgFailed
     | Ok dataUrl =>
         match Tesseract_recognize dataUrl with
         | Err => plateText s = [] /\ error s = msgFailed
         | Ok data =>
             match validate data with
             | Accepted x =>
                 plateText s = x /\ x = normalize (text data)
                 /\ 3 <= length x /\ error s = errorDuring during
             | LowConfidence =>
                 plateText s = [] /\ error s = msgLowConfidence
             | AmbiguousShortText =>
                 plateText s = [] /\ error s = msgUnclear
             | NotPlateShaped =>
                 plateText s = [] /\ error s = msgNoPlate
             end
         end
     end
  /\ (forall (pt e : jsstring) (l : bool),
        ui (world (snd (recognizeTextAmid during canvas
                          (mkMounted
                             (mkWorld (mkState pt l e
                                               (lastCapture (ui (world p))))
                                      (canvasRef (world p))
                                      (videoRef (world p))
                                      (trace (world p)))
                             (srcObject p)))))
        = s).
Proof.
  intros s. subst s. rewrite recognizeTextAmid_ui.
  split; [|split; [|split]].
  - destruct (toDataURL canvas) as [dataUrl|]; [|right; discriminate].
    destruct (Tesseract_recognize dataUrl) as [data|]; [|right; discriminate].
    destruct (validate data) as [x| | |] eqn:Hv; simpl;
      try (right; discriminate).
    left. apply accepted_shape in Hv. intros ->. simpl in Hv. lia.
  - intros Hquiet.
    destruct (toDataURL canvas) as [dataUrl|];
      [|left; split; [reflexivity | discriminate]].
    destruct (Tesseract_recognize dataUrl) as [data|];
      [|left; split; [reflexivity | discriminate]].
    destruct (validate data) as [x| | |] eqn:Hv; simpl;
      try (left; split; [reflexivity | discriminate]).
    right. split.
    + apply accepted_shape in Hv. intros ->. simpl in Hv. lia.
    + destruct during as [[stream|]|]; try reflexivity.
      exfalso. apply Hquiet. reflexivity.
  - destruct (toDataURL canvas) as [dataUrl|]; [|split; reflexivity].
    destruct (Tesseract_recognize dataUrl) as [data|]; [|split; reflexivity].
    destruct (validate data) as [x| | |] eqn:Hv; simpl;
      try (split; reflexivity).
    split; [reflexivity|]. split; [apply (validate_accepted _ _ Hv)|].
    split; [apply (accepted_shape _ _ Hv) | reflexivity].
  - intros pt e l. rewrite recognizeTextAmid_ui. reflexivity.
Qed.

(** ** More on the validator *)

Lemma isLetter_upperUnit (c : code_unit) :
  isLetter (upperUnit c) = isLetter c.
Proof. class_cases. Qed.

Lemma isDigit_upperUnit (c : code_unit) :
  isDigit (upperUnit c) = isDigit c.
Proof. class_cases. Qed.

Lemma count_toUpperCase (cls : code_unit -> bool) (s : jsstring) :
  (forall c, cls (upperUnit c) = cls c) ->
  length (filter cls (toUpperCase s)) = length (filter cls s).
Proof.
  intros Hcls. unfold toUpperCase.
  induction s as [|c s IH]; simpl; [reflexivity|].
  rewrite Hcls. destruct (cls c); simpl; rewrite IH; reflexivity.
Qed.

(** Each code unit of the class is a letter, a digit or a hyphen, and
    only one of them. *)
Lemma plateClass_split (c : code_unit) :
  plateClass c = true ->
  (if isLetter c then 1 else 0) + (if isDigit c then 1 else 0)
  + (if isHyphen c then 1 else 0) = 1.
Proof. class_cases. Qed.

Lemma clean_length_split (s : jsstring) :
  forallb plateClass s = true ->
  length s = letters s + digits s + length (filter isHyphen s).
Proof.
  unfold letters, digits.
  induction s as [|c s IH]; simpl; [reflexivity|].
  intros H. apply andb_true_iff in H as [Hc Hs].
  specialize (IH Hs). pose proof (plateClass_split c Hc) as Hone.
  destruct (isLetter c), (isDigit c), (isHyphen c); simpl in *; lia.
Qed.

Lemma valid_counts (s : jsstring) :
  isValidPlateNumber s = true <->
  length (replaceNonPlate s) <= 10
  /\ 1 <= letterCount (replaceNonPlate s)
  /\ 1 <= numberCount (replaceNonPlate s)
  /\ 4 <= letterCount (replaceNonPlate s) + numberCount (replaceNonPlate s).
Proof.
  rewrite isValidPlateNumber_shape.
  unfold plateShaped, letterCount, numberCount.
  rewrite !matchAll_count, <- !test_exists, !test_count, !Nat.leb_le.
  fold (letters (replaceNonPlate s)) (digits (replaceNonPlate s)).
  pose proof (counts_le_length (replaceNonPlate s)). lia.
Qed.

Lemma valid_normalize (s : jsstring) :
  isValidPlateNumber (normalize s) = isValidPlateNumber s.
Proof.
  unfold isValidPlateNumber.
  rewrite (replaceNonPlate_clean _ (normalize_clean s)).
  unfold normalize, letterCount, numberCount.
  set (r := replaceNonPlate s).
  rewrite !matchAll_count, !test_count.
  rewrite (count_toUpperCase isLetter r isLetter_upperUnit).
  rewrite (count_toUpperCase isDigit r isDigit_upperUnit).
  unfold toUpperCase. rewrite length_map. reflexivity.
Qed.

(** Whether a text is accepted, in one line. *)
Lemma accepted_iff (t : jsstring) (c : number) :
  validate (mkResult t c) = Accepted (normalize t)
  <-> ltb c (num 15) = false /\ isValidPlateNumber t = true.
Proof.
  unfold validate. simpl. rewrite valid_normalize.
  destruct (ltb c (num 15)); [split; [discriminate | intros [? _]; discriminate]|].
  destruct (ltb c (num 30) && (length (normalize t) <? 4)) eqn:Hgate.
  - apply andb_true_iff in Hgate as [_ Hlen]. apply Nat.ltb_lt in Hlen.
    assert (Hv : isValidPlateNumber t = false).
    { rewrite <- valid_normalize. apply short_not_plate.
      rewrite (replaceNonPlate_clean _ (normalize_clean t)). exact Hlen. }
    rewrite Hv. split; [discriminate | intros [_ ?]; discriminate].
  - destruct (isValidPlateNumber t); simpl.
    + split; [intros _; split; reflexivity | reflexivity].
    + split; [discriminate | intros [_ ?]; discriminate].
Qed.

Lemma leb_keeps_gate (c1 c2 : number) (z : Z) :
  leb c1 c2 = true -> ltb c1 (num z) = false -> ltb c2 (num z) = false.
Proof.
  destruct c1 as [| |q1|], c2 as [| |q2|]; simpl;
    try discriminate; try reflexivity.
  rewrite !negb_false_iff, !Qle_bool_iff.
  intros H12 H1. apply Qle_trans with q1; assumption.
Qed.

(** X1: a text is valid exactly when, with everything but letters,
    digits and hyphens removed, it is at most 10 long and holds a letter,
    a digit and at least four letters and digits in all. *)
Theorem valid_iff_counts (s : jsstring) :
  isValidPlateNumber s = true <->
  length (replaceNonPlate s) <= 10
  /\ 1 <= letterCount (replaceNonPlate s)
  /\ 1 <= numberCount (replaceNonPlate s)
  /\ 4 <= letterCount (replaceNonPlate s) + numberCount (replaceNonPlate s).
Proof. apply valid_counts. Qed.

(** X2: an accepted string holds at least four letters and digits, so it
    is 4 to 10 long (never 3) and has at most six hyphens. *)
Theorem accepted_at_least_four (data : RecognitionResult) (x : jsstring) :
  validate data = Accepted x ->
  4 <= letterCount x + numberCount x
  /\ 4 <= length x <= 10
  /\ length (filter isHyphen x) <= 6.
Proof.
  intros Hx. pose proof (validate_accepted _ _ Hx) as ->.
  destruct data as [t c]. simpl text in *.
  apply accepted_iff in Hx. destruct Hx as [_ Hv].
  rewrite <- valid_normalize in Hv. apply valid_counts in Hv.
  rewrite (replaceNonPlate_clean _ (normalize_clean t)) in Hv.
  destruct Hv as (H10 & _ & _ & H4).
  assert (Hclass : forallb plateClass (normalize t) = true).
  { rewrite <- (replaceNonPlate_clean _ (normalize_clean t)).
    apply replaceNonPlate_class. }
  pose proof (clean_length_split _ Hclass) as Hsplit.
  unfold letterCount, numberCount in *. rewrite !matchAll_count in *.
  unfold letters, digits in Hsplit. lia.
Qed.

(** X3: the verdict on a text is the verdict on its cleaned, upper-cased
    form: what the cleaning removes and the case of the letters do not
    count. *)
Theorem valid_ignores_noise_and_case (s : jsstring) :
  isValidPlateNumber (normalize s) = isValidPlateNumber s
  /\ isValidPlateNumber (replaceNonPlate s) = isValidPlateNumber s.
Proof.
  split; [apply valid_normalize|].
  unfold isValidPlateNumber, replaceNonPlate.
  rewrite (forallb_filter_id plateClass (filter plateClass s));
    [reflexivity | apply forallb_filter].
Qed.

(** X4: a text is accepted exactly when the confidence is not below 15
    and the text is valid: the second confidence gate never turns away a
    text the shape gate would let through. *)
Theorem acceptance_ignores_second_gate (t : jsstring) (c : number) :
  (exists x, validate (mkResult t c) = Accepted x)
  <-> ltb c (num 15) = false /\ isValidPlateNumber t = true.
Proof.
  rewrite <- accepted_iff. split.
  - intros [x Hx]. rewrite Hx. f_equal.
    apply (validate_accepted _ _ Hx).
  - intros H. exists (normalize t). exact H.
Qed.

(** X5: more confidence never loses an acceptance. *)
Theorem more_confidence_keeps_acceptance
  (t x : jsstring) (c1 c2 : number) :
  validate (mkResult t c1) = Accepted x ->
  leb c1 c2 = true ->
  validate (mkResult t c2) = Accepted x.
Proof.
  intros Hx Hle. pose proof (validate_accepted _ _ Hx) as ->. simpl text in *.
  apply accepted_iff in Hx. apply accepted_iff.
  destruct Hx as [H15 Hv]. split; [|exact Hv].
  apply (leb_keeps_gate c1 c2 15 Hle H15).
Qed.

(** X6: a confidence that is not below 30 is looked at no further, and
    [NaN] is such a confidence: the shape of the text alone decides. *)
Theorem unchecked_confidence (t : jsstring) (c : number) :
  ltb c (num 30) = false ->
  validate (mkResult t c)
  = if isValidPlateNumber t then Accepted (normalize t) else NotPlateShaped.
Proof.
  intros H30.
  assert (H15 : ltb c (num 15) = false).
  { destruct (ltb c (num 15)) eqn:H; [|reflexivity].
    apply (ltb_num_trans c 15 30) in H; [congruence | lia]. }
  unfold validate. simpl. rewrite H15, H30, valid_normalize. simpl.
  destruct (isValidPlateNumber t); reflexivity.
Qed.

(** X7: an accepted string is accepted again, as itself, at the same
    confidence. *)
Theorem accepted_is_fixed_point (t x : jsstring) (c : number) :
  validate (mkResult t c) = Accepted x ->
  validate (mkResult x c) = Accepted x.
Proof.
  intros Hx. pose proof (validate_accepted _ _ Hx) as ->. simpl text in *.
  apply accepted_iff in Hx. destruct Hx as [H15 Hv].
  rewrite <- (clean_fixed _ (normalize_clean t)) at 2.
  apply accepted_iff. split; [exact H15|].
  rewrite valid_normalize. exact Hv.
Qed.

(** ** More on the recognition cycle *)

Lemma show_keeps (o : Outcome) (s : State) :
  loading (show o s) = loading s /\ lastCapture (show o s) = lastCapture s.
Proof. destruct o; split; reflexivity. Qed.

Lemma captureImage_run
  (w : World) (canvas : HTMLCanvasElement) (video : HTMLVideoElement) :
  canvasRef w = Some canvas ->
  videoRef w = Some video ->
  captureImage w =
  if getContext (sized video)
  then recognizeText (drawn video)
         (mkWorld (ui w) (Some (drawn video)) (Some video) (trace w))
  else (Normal tt, mkWorld (ui w) (Some (sized video)) (Some video) (trace w)).
Proof.
  intros Hc Hv. unfold captureImage, sized, drawn. rewrite Hc, Hv. simpl.
  reflexivity.
Qed.

Lemma recognizeText_ends (canvas : HTMLCanvasElement) (w : World) :
  fst (recognizeText canvas w) <> Throw
  /\ loading (ui (snd (recognizeText canvas w))) = false
  /\ canvasRef (snd (recognizeText canvas w)) = canvasRef w
  /\ videoRef (snd (recognizeText canvas w)) = videoRef w.
Proof.
  rewrite recognizeText_run.
  destruct (toDataURL canvas) as [dataUrl|];
    [|repeat split; discriminate].
  destruct (Tesseract_recognize dataUrl) as [data|];
    [|repeat split; discriminate].
  simpl. split; [destruct (validate data); discriminate|].
  split; [apply show_keeps|]. split; reflexivity.
Qed.

(** X8: whatever the encoder and the engine do, [recognizeText] does not
    throw, ends with [loading] off and leaves both refs alone. *)
Theorem recognizeText_settles (canvas : HTMLCanvasElement) (w : World) :
  fst (recognizeText canvas w) <> Throw
  /\ loading (ui (snd (recognizeText canvas w))) = false
  /\ canvasRef (snd (recognizeText canvas w)) = canvasRef w
  /\ videoRef (snd (recognizeText canvas w)) = videoRef w.
Proof. apply recognizeText_ends. Qed.

(** X9: the capture kept for display is the data URL sent to the engine,
    whatever the engine answers; the engine is asked once, and only when
    the encoder gave a data URL; when it gave none, the capture shown
    before stays. *)
Theorem capture_shown_is_capture_sent
  (canvas : HTMLCanvasElement) (w : World) :
  match toDataURL canvas with
  | Ok dataUrl =>
      lastCapture (ui (snd (recognizeText canvas w))) = Some dataUrl
      /\ trace (snd (recognizeText canvas w))
         = trace w ++ [RecognizeTextCalled; EngineRequest dataUrl]
  | Err =>
      lastCapture (ui (snd (recognizeText canvas w))) = lastCapture (ui w)
      /\ trace (snd (recognizeText canvas w))
         = trace w ++ [RecognizeTextCalled]
  end.
Proof.
  rewrite recognizeText_run.
  destruct (toDataURL canvas) as [dataUrl|]; [|split; reflexivity].
  destruct (Tesseract_recognize dataUrl) as [data|]; [|split; reflexivity].
  simpl. split; [apply show_keeps | reflexivity].
Qed.

(** X10: after a run, whatever the mount effect did during the wait, the
    button is enabled under its idle label and the page shows the error
    banner or the valid-plate box; the plate input is filled exactly when
    the box is shown; and both the banner and the box are shown exactly
    when the camera failed during the wait and the text was accepted. *)
Theorem run_shows_banner_or_plate
  (during : option Settlement) (canvas : HTMLCanvasElement) (p : Mounted) :
  let v := render (ui (world (snd (recognizeTextAmid during canvas p)))) in
  buttonDisabled v = false
  /\ buttonLabel v = lit "Capture & Read Plate"
  /\ (errorBanner v <> None \/ validPlate v <> None)
  /\ (plateInput v = [] <-> validPlate v = None)
  /\ ((errorBanner v <> None /\ validPlate v <> None)
      <-> (during = Some Denied
           /\ exists dataUrl data x,
                toDataURL canvas = Ok dataUrl
                /\ Tesseract_recognize dataUrl = Ok data
                /\ validate data = Accepted x)).
Proof.
  intros v. subst v. rewrite recognizeTextAmid_ui.
  assert (Hrej : forall (e : jsstring) (l : option jsstring),
             e <> [] ->
             buttonDisabled (render (mkState [] false e l)) = false
             /\ buttonLabel (render (mkState [] false e l))
                = lit "Capture & Read Plate"
             /\ (errorBanner (render (mkState [] false e l)) <> None
                 \/ validPlate (render (mkState [] false e l)) <> None)
             /\ (plateInput (render (mkState [] false e l)) = []
                 <-> validPlate (render (mkState [] false e l)) = None)
             /\ ~ (errorBanner (render (mkState [] false e l)) <> None
                   /\ validPlate (render (mkState [] false e l)) <> None)).
  { intros e l He. destruct e as [|c e]; [congruence|]. simpl.
    split; [reflexivity|]. split; [reflexivity|].
    split; [left; discriminate|]. split; [split; reflexivity|].
    intros [_ H]. apply H. reflexivity. }
  assert (Hno : forall P : Prop,
             (exists (dataUrl : jsstring) (data : RecognitionResult)
                     (x : jsstring),
                 Err = Ok dataUrl /\ P) -> False).
  { intros P (u & d & x & H & _). discriminate. }
  destruct (toDataURL canvas) as [dataUrl|].
  2:{ destruct (Hrej msgFailed (lastCapture (ui (world p))))
        as (H1 & H2 & H3 & H4 & H5); [discriminate|].
      repeat (split; [assumption|]).
      split; [intros H; contradiction|].
      intros (_ & u & d & x & H & _). discriminate. }
  destruct (Tesseract_recognize dataUrl) as [data|] eqn:Hdata.
  2:{ destruct (Hrej msgFailed (Some dataUrl))
        as (H1 & H2 & H3 & H4 & H5); [discriminate|].
      repeat (split; [assumption|]).
      split; [intros H; contradiction|].
      intros (_ & u & d & x & Hu & Hd & _).
      injection Hu as <-. congruence. }
  destruct (validate data) as [x| | |] eqn:Hv.
  - pose proof (accepted_shape _ _ Hv) as Hlen.
    destruct x as [|c0 x]; [simpl in Hlen; lia|].
    unfold loadingOff, show. simpl.
    split; [reflexivity|]. split; [reflexivity|].
    split; [right; discriminate|].
    split; [split; discriminate|].
    destruct during as [[stream|]|]; simpl.
    + split; [intros [H _]; exfalso; apply H; reflexivity|].
      intros [H _]. discriminate.
    + split; [|intros _; split; discriminate].
      intros _. split; [reflexivity|].
      exists dataUrl, data, (c0 :: x). repeat split; assumption.
    + split; [intros [H _]; exfalso; apply H; reflexivity|].
      intros [H _]. discriminate.
  - destruct (Hrej msgLowConfidence (Some dataUrl))
      as (H1 & H2 & H3 & H4 & H5); [discriminate|].
    unfold loadingOff, show. simpl plateText. simpl error. simpl lastCapture.
    repeat (split; [assumption|]).
    split; [intros H; contradiction|].
    intros (_ & u & d & x & Hu & Hd & Hx).
    injection Hu as <-. congruence.
  - destruct (Hrej msgUnclear (Some dataUrl))
      as (H1 & H2 & H3 & H4 & H5); [discriminate|].
    unfold loadingOff, show. simpl plateText. simpl error. simpl lastCapture.
    repeat (split; [assumption|]).
    split; [intros H; contradiction|].
    intros (_ & u & d & x & Hu & Hd & Hx).
    injection Hu as <-. congruence.
  - destruct (Hrej msgNoPlate (Some dataUrl))
      as (H1 & H2 & H3 & H4 & H5); [discriminate|].
    unfold loadingOff, show. simpl plateText. simpl error. simpl lastCapture.
    repeat (split; [assumption|]).
    split; [intros H; contradiction|].
    intros (_ & u & d & x & Hu & Hd & Hx).
    injection Hu as <-. congruence.
Qed.

(** X11: with both refs, a capture does not throw, keeps the video and
    leaves behind the ref a canvas of the size of the video. *)
Theorem captureImage_sizes_canvas
  (w : World) (canvas : HTMLCanvasElement) (video : HTMLVideoElement) :
  canvasRef w = Some canvas ->
  videoRef w = Some video ->
  fst (captureImage w) <> Throw
  /\ videoRef (snd (captureImage w)) = Some video
  /\ exists cv,
       canvasRef (snd (captureImage w)) = Some cv
       /\ width cv = videoWidth video
       /\ height cv = videoHeight video.
Proof.
  intros Hc Hv. rewrite (captureImage_run w canvas video Hc Hv).
  destruct (getContext (sized video)).
  - match goal with
    | |- context [recognizeText ?cv ?w0] =>
        destruct (recognizeText_ends cv w0) as (Hthrow & _ & Hcr & Hvr)
    end.
    split; [exact Hthrow|]. split; [rewrite Hvr; reflexivity|].
    exists (drawn video). rewrite Hcr. repeat split; reflexivity.
  - split; [discriminate|]. split; [reflexivity|].
    exists (sized video). repeat split; reflexivity.
Qed.

Lemma app_cons_not_nil_r (es : list Event) (e : Event) (rest : list Event) :
  es <> es ++ e :: rest.
Proof.
  intros H. apply (f_equal (@length Event)) in H.
  rewrite length_app in H. simpl in H. lia.
Qed.

(** X12: with both refs, a capture starts a recognition exactly when the
    canvas gives a 2d context; without one the canvas is still resized and
    cleared, and the component state stays as it was. *)
Theorem recognition_needs_context
  (w : World) (canvas : HTMLCanvasElement) (video : HTMLVideoElement) :
  canvasRef w = Some canvas ->
  videoRef w = Some video ->
  ((exists es,
      trace (snd (captureImage w)) = trace w ++ RecognizeTextCalled :: es)
   <-> getContext (sized video) = true)
  /\ (getContext (sized video) = false ->
      ui (snd (captureImage w)) = ui w
      /\ canvasRef (snd (captureImage w)) = Some (sized video)).
Proof.
  intros Hc Hv. rewrite (captureImage_run w canvas video Hc Hv).
  destruct (getContext (sized video)).
  - split; [|discriminate]. split; [reflexivity|]. intros _.
    match goal with
    | |- context [recognizeText ?cv ?w0] =>
        destruct (recognizeText_traced cv w0) as [es Hes]
    end.
    exists es. exact Hes.
  - split; [|intros _; split; reflexivity].
    split; [|discriminate]. intros [es Hes]. simpl in Hes.
    exfalso. exact (app_cons_not_nil_r _ _ _ Hes).
Qed.

(** X13: with both refs and a 2d context, the state a capture leaves is
    the state of a recognition run on the canvas that holds the frame of
    the video at the size of the video; the capture shown is the encoding
    of that canvas. *)
Theorem capture_recognizes_drawn_frame
  (w : World) (canvas : HTMLCanvasElement) (video : HTMLVideoElement)
  (dataUrl : jsstring) :
  canvasRef w = Some canvas ->
  videoRef w = Some video ->
  getContext (sized video) = true ->
  toDataURL (drawn video) = Ok dataUrl ->
  ui (snd (captureImage w)) = ui (snd (recognizeText (drawn video) w))
  /\ canvasRef (snd (captureImage w)) = Some (drawn video)
  /\ lastCapture (ui (snd (captureImage w))) = Some dataUrl
  /\ trace (snd (captureImage w))
     = trace w ++ [RecognizeTextCalled; EngineRequest dataUrl].
Proof.
  intros Hc Hv Hctx Hurl.
  rewrite (captureImage_run w canvas video Hc Hv), Hctx.
  rewrite !recognizeText_run, Hurl.
  destruct (Tesseract_recognize dataUrl) as [data|];
    repeat split; try reflexivity.
  simpl. apply show_keeps.
Qed.


End Page.

(** ** The theorems at concrete inputs *)

Lemma shape_gate_decides_witness :
  geb (num 50) (num 15) = true
  /\ (validate (mkResult (lit "KA01AB1234") (num 50))
      = Accepted (normalize (lit "KA01AB1234"))
      <-> plateShaped (normalize (lit "KA01AB1234"))).
Proof.
  split; [reflexivity|].
  apply (shape_gate_decides (lit "KA01AB1234") (num 50)); reflexivity.
Defined.

Lemma low_confidence_rejected_witness :
  ltb (num 10) (num 15) = true
  /\ validate (mkResult (lit "XYZ") (num 10)) = LowConfidence.
Proof.
  split; [reflexivity|].
  apply (low_confidence_rejected (lit "XYZ") (num 10)); reflexivity.
Defined.

Lemma short_text_rejected_witness :
  length (normalize (lit "Z9")) < 4
  /\ validate (mkResult (lit "Z9") (num 25)) = AmbiguousShortText.
Proof.
  assert (H : length (normalize (lit "Z9")) < 4) by (cbv; lia).
  split; [exact H|].
  destruct (short_text_rejected (lit "Z9") (num 25)) as (Hv & _);
    [reflexivity..|exact H|exact Hv].
Defined.

Lemma accepted_well_formed_witness :
  forallb cleanClass (lit "KA01AB1234") = true
  /\ 3 <= length (lit "KA01AB1234") <= 10.
Proof.
  destruct (accepted_well_formed (mkResult (lit "ka01 ab1234") (num 50))
              (lit "KA01AB1234")) as (Hc & Hlen & _); [reflexivity|].
  split; [exact Hc | exact Hlen].
Defined.

Lemma normalize_idempotent_witness :
  forallb cleanClass (lit "AB-12") = true
  /\ normalize (lit "AB-12") = lit "AB-12".
Proof.
  split; [reflexivity|].
  apply (proj2 (normalize_idempotent (lit "AB-12"))). reflexivity.
Defined.

Lemma hyphens_count_as_length_only_witness :
  length (normalize (lit "AB" ++ lit "-" ++ lit "12"))
  = S (length (normalize (lit "AB" ++ lit "12")))
  /\ letterCount (normalize (lit "AB" ++ lit "-" ++ lit "12"))
     = letterCount (normalize (lit "AB" ++ lit "12")).
Proof.
  destruct (hyphens_count_as_length_only (num 80) (lit "AB") (lit "12"))
    as (_ & Hlen & Hletters & _); [reflexivity|].
  split; [exact Hlen | exact Hletters].
Defined.

Lemma validator_total_witness :
  inRange (num 50) = true
  /\ decides (lit "KA01AB1234") (num 50)
       (validate (mkResult (lit "KA01AB1234") (num 50))).
Proof.
  split; [reflexivity|].
  destruct (validator_total unit (lit "KA01AB1234") (num 50)
              (mkWorld unit (mkState [] true [] None) None None []))
    as (_ & H & _); [reflexivity | exact H].
Defined.

(** C10 as stated fails: the camera is denied while the run waits for the
    engine, the engine then answers with a plate, and the run ends with
    both the plate text and the error set. *)
Lemma camera_denied_during_wait_leaves_both :
  ~ (let s :=
       ui unit
          (world unit unit
             (snd (recognizeTextAmid unit
                     (fun _ => Ok (lit "data:image/png;base64,iVBOR"))
                     (fun _ => Ok (mkResult (lit "KA01AB1234") (num 50)))
                     unit (Some (Denied unit))
                     (mkCanvas unit 640 480 tt)
                     (mkMounted unit unit
                        (mkWorld unit (mkState [] false [] None)
                           (Some (mkCanvas unit 640 480 tt))
                           (Some (mkVideo unit 640 480 tt)) [])
                        None)))) in
     (plateText s = [] /\ error s <> [])
     \/ (plateText s <> [] /\ error s = [])).
Proof.
  vm_compute. intros [[H _] | [_ H]]; discriminate.
Qed.

Lemma captureImage_without_refs_witness :
  captureImage unit (fun _ _ => tt) (fun _ => true) (fun _ _ _ i => i)
    (fun _ => Ok (lit "data:image/png;base64,iVBOR"))
    (fun _ => Ok (mkResult (lit "KA01AB1234") (num 50)))
    (mkWorld unit (mkState [] false [] None)
       (Some (mkCanvas unit 300 150 tt)) None [])
  = (Normal tt,
     mkWorld unit (mkState [] false [] None)
       (Some (mkCanvas unit 300 150 tt)) None []).
Proof.
  apply (captureImage_without_refs unit (fun _ _ => tt) (fun _ => true)
           (fun _ _ _ i => i)
           (fun _ => Ok (lit "data:image/png;base64,iVBOR"))
           (fun _ => Ok (mkResult (lit "KA01AB1234") (num 50)))).
  right. reflexivity.
Defined.

Lemma accepted_at_least_four_witness :
  4 <= length (lit "AB-12") <= 10
  /\ length (filter isHyphen (lit "AB-12")) <= 6.
Proof.
  destruct (accepted_at_least_four (mkResult (lit "ab-12") (num 50))
              (lit "AB-12")) as (_ & Hlen & Hhyphens); [reflexivity|].
  split; [exact Hlen | exact Hhyphens].
Defined.

Lemma more_confidence_keeps_acceptance_witness :
  validate (mkResult (lit "KA01AB1234") (num 20))
  = Accepted (lit "KA01AB1234")
  /\ validate (mkResult (lit "KA01AB1234") (num 90))
     = Accepted (lit "KA01AB1234").
Proof.
  assert (H : validate (mkResult (lit "KA01AB1234") (num 20))
              = Accepted (lit "KA01AB1234")) by reflexivity.
  split; [exact H|].
  apply (more_confidence_keeps_acceptance (lit "KA01AB1234")
           (lit "KA01AB1234") (num 20) (num 90) H).
  reflexivity.
Defined.

Lemma unchecked_confidence_witness :
  validate (mkResult (lit "Z9") NaN) = NotPlateShaped.
Proof.
  apply (unchecked_confidence (lit "Z9") NaN). reflexivity.
Defined.

Lemma accepted_is_fixed_point_witness :
  validate (mkResult (lit "AB-12") (num 50)) = Accepted (lit "AB-12").
Proof.
  apply (accepted_is_fixed_point (lit " ab-12 ") (lit "AB-12") (num 50)).
  reflexivity.
Defined.

Lemma captureImage_sizes_canvas_witness :
  videoRef unit
    (snd (captureImage unit (fun _ _ => tt) (fun _ => true)
            (fun _ _ _ i => i)
            (fun _ => Ok (lit "data:image/png;base64,iVBOR"))
            (fun _ => Ok (mkResult (lit "KA01AB1234") (num 50)))
            (mkWorld unit (mkState [] false [] None)
               (Some (mkCanvas unit 300 150 tt))
               (Some (mkVideo unit 640 480 tt)) [])))
  = Some (mkVideo unit 640 480 tt).
Proof.
  destruct (captureImage_sizes_canvas unit (fun _ _ => tt) (fun _ => true)
              (fun _ _ _ i => i)
              (fun _ => Ok (lit "data:image/png;base64,iVBOR"))
              (fun _ => Ok (mkResult (lit "KA01AB1234") (num 50)))
              (mkWorld unit (mkState [] false [] None)
                 (Some (mkCanvas unit 300 150 tt))
                 (Some (mkVideo unit 640 480 tt)) [])
              (mkCanvas unit 300 150 tt) (mkVideo unit 640 480 tt))
    as (_ & Hvideo & _); [reflexivity..|exact Hvideo].
Defined.

Lemma recognition_needs_context_witness :
  canvasRef unit
    (snd (captureImage unit (fun _ _ => tt) (fun _ => false)
            (fun _ _ _ i => i)
            (fun _ => Ok (lit "data:image/png;base64,iVBOR"))
            (fun _ => Ok (mkResult (lit "KA01AB1234") (num 50)))
            (mkWorld unit (mkState [] false [] None)
               (Some (mkCanvas unit 300 150 tt))
               (Some (mkVideo unit 640 480 tt)) [])))
  = Some (mkCanvas unit 640 480 tt).
Proof.
  destruct (recognition_needs_context unit (fun _ _ => tt) (fun _ => false)
              (fun _ _ _ i => i)
              (fun _ => Ok (lit "data:image/png;base64,iVBOR"))
              (fun _ => Ok (mkResult (lit "KA01AB1234") (num 50)))
              (mkWorld unit (mkState [] false [] None)
                 (Some (mkCanvas unit 300 150 tt))
                 (Some (mkVideo unit 640 480 tt)) [])
              (mkCanvas unit 300 150 tt) (mkVideo unit 640 480 tt))
    as (_ & Hno); [reflexivity..|].
  destruct (Hno eq_refl) as [_ Hcanvas]. exact Hcanvas.
Defined.

Lemma capture_recognizes_drawn_frame_witness :
  lastCapture
    (ui unit (snd (captureImage unit (fun _ _ => tt) (fun _ => true)
                (fun _ _ _ i => i)
                (fun _ => Ok (lit "data:image/png;base64,iVBOR"))
                (fun _ => Ok (mkResult (lit "KA01AB1234") (num 50)))
                (mkWorld unit (mkState [] false [] None)
                   (Some (mkCanvas unit 300 150 tt))
                   (Some (mkVideo unit 640 480 tt)) []))))
  = Some (lit "data:image/png;base64,iVBOR").
Proof.
  destruct (capture_recognizes_drawn_frame unit (fun _ _ => tt)
              (fun _ => true) (fun _ _ _ i => i)
              (fun _ => Ok (lit "data:image/png;base64,iVBOR"))
              (fun _ => Ok (mkResult (lit "KA01AB1234") (num 50)))
              (mkWorld unit (mkState [] false [] None)
                 (Some (mkCanvas unit 300 150 tt))
                 (Some (mkVideo unit 640 480 tt)) [])
              (mkCanvas unit 300 150 tt) (mkVideo unit 640 480 tt)
              (lit "data:image/png;base64,iVBOR"))
    as (_ & _ & Hcapture & _); [reflexivity..|exact Hcapture].
Defined.
